(** * Saizeriya menu simulator: the pure core of [App.tsx]

    A shallow embedding of the computation layer of the simulator
    (totals, pass/fail evaluation, search filter, saved combinations,
    greedy selection) together with the properties stated about it.

    Conventions of the embedding.
    - A JavaScript [number] is an exact rational ([Qc], Leibniz equality).
      Rounding of IEEE doubles, [NaN] and the infinities are outside the
      model; on integers below 2^53 both readings agree.
    - A [Record<string, number>] is a finite map [gmap string Qc] over the
      object's own keys; [undefined] is a missing key.
    - Optional fields ([kcal?], [budget?], ...) are [option]s.
    - The host's string and date primitives ([trim], [toLowerCase],
      [toLocaleString]) are an interface, [Runtime]; an ASCII instance makes
      every definition executable.
    - [Date.now()] reads a clock that is threaded through explicitly. *)

From Stdlib Require Import Ascii String QArith Qcanon Qround Lqa.
From stdpp Require Import gmap strings list fin_maps pretty.

Set Warnings "-register-all".
Local Open Scope Qc_scope.

(* ===================================================================== *)
(** * Numbers *)
(* ===================================================================== *)

Abbreviation number := Qc (only parsing).

(** Integer literals of the source. *)
Definition int (z : Z) : number := Qc_of_Z z.

(** [v || 0] where [v] is a number or [undefined]. *)
Definition orZero (v : option number) : number := default 0 v.

(** [a <= b], [a > b], [a >= b] as the booleans JavaScript computes. *)
Definition leb (a b : number) : bool := bool_decide (a ≤ b).
Definition gtb (a b : number) : bool := bool_decide (b < a).
Definition geb (a b : number) : bool := bool_decide (b ≤ a).

(** [Math.max(a, b)] and [Math.floor(v)]. *)
Definition Math_max (a b : number) : number := if decide (a ≤ b) then b else a.
Definition Math_floor (v : number) : number := int (Qfloor v).

(** [Math.min(...xs)]; [None] stands for the [Infinity] of an empty list. *)
Definition Math_min (xs : list number) : option number :=
  match xs with
  | [] => None
  | x :: xs' => Some (foldl (λ m y, if decide (y < m) then y else m) x xs')
  end.

(** [const sum = (arr) => arr.reduce((a, b) => a + b, 0)] *)
Definition sum (arr : list number) : number := foldl Qcplus 0 arr.

(* ===================================================================== *)
(** * Types *)
(* ===================================================================== *)

Inductive Category := Shushoku | Okazu | SaladZensai | Side | Dessert.

(** The string a [Category] is at run time. *)
Definition category_label (c : Category) : string :=
  match c with
  | Shushoku => "主食"
  | Okazu => "おかず"
  | SaladZensai => "サラダ/前菜"
  | Side => "サイド"
  | Dessert => "デザート"
  end.

Module Item.
Record t := mk {
  id : string;
  name : string;
  category : Category;
  price : number;
  kcal : option number;
  protein : option number;
  fat : option number;
  carbs : option number;
  salt : option number;
  tags : option (list string);
}.
End Item.
Abbreviation Item := Item.t (only parsing).

Module Targets.
Record t := mk {
  budget : option number;
  maxKcal : option number;
  minProtein : option number;
  maxSalt : option number;
}.
End Targets.
Abbreviation Targets := Targets.t (only parsing).

Module Totals.
Record t := mk {
  count : number;
  price : number;
  kcal : number;
  protein : number;
  fat : number;
  carbs : number;
  salt : number;
}.
End Totals.
Abbreviation Totals := Totals.t (only parsing).

Module PassFail.
Record t := mk { budget : bool; kcal : bool; protein : bool; salt : bool }.
End PassFail.

Module SavedCombo.
Record t := mk {
  id : string;
  name : string;
  createdAt : number;
  qty : gmap string number;
  targets : option Targets;
}.
End SavedCombo.
Abbreviation SavedCombo := SavedCombo.t (only parsing).

(* ===================================================================== *)
(** * computeTotals *)
(* ===================================================================== *)

(** [const getQty = (id) => Math.max(0, qty[id] || 0)] *)
Definition getQty (qty : gmap string number) (id : string) : number :=
  Math_max 0 (orZero (qty !! id)).

(** [pick(k)]: [typeof it[k] === "number" ? it[k] * getQty(it.id) : 0],
    summed over the items.  The key [k] is the field projection. *)
Definition pick (items : list Item) (qty : gmap string number)
    (k : Item → option number) : number :=
  sum (map (λ it, match k it with
                  | Some v => v * getQty qty (Item.id it)
                  | None => 0
                  end) items).

Definition computeTotals (items : list Item) (qty : gmap string number) : Totals :=
  {| Totals.count := sum (map (λ it, getQty qty (Item.id it)) items);
     Totals.price := pick items qty (λ it, Some (Item.price it));
     Totals.kcal := pick items qty Item.kcal;
     Totals.protein := pick items qty Item.protein;
     Totals.fat := pick items qty Item.fat;
     Totals.carbs := pick items qty Item.carbs;
     Totals.salt := pick items qty Item.salt |}.

(* ===================================================================== *)
(** * passFail *)
(* ===================================================================== *)

(** The [passFail] memo of the component, as a function of the two values it
    depends on. *)
Definition passFail (targets : Targets) (totals : Totals) : PassFail.t :=
  {| PassFail.budget :=
       match Targets.budget targets with
       | None => true
       | Some b => leb (Totals.price totals) b
       end;
     PassFail.kcal :=
       match Targets.maxKcal targets with
       | None => true
       | Some m => leb (Totals.kcal totals) m
       end;
     PassFail.protein :=
       match Targets.minProtein targets with
       | None => true
       | Some m => geb (Totals.protein totals) m
       end;
     PassFail.salt :=
       match Targets.maxSalt targets with
       | None => true
       | Some m => leb (Totals.salt totals) m
       end |}.

(* ===================================================================== *)
(** * Host primitives *)
(* ===================================================================== *)

(** What the code asks of the JavaScript runtime: [String.prototype.trim],
    [String.prototype.toLowerCase] and [Date.prototype.toLocaleString] at the
    locale ["ja-JP"], the latter as a function of the time value in ms. *)
Class Runtime := {
  trim : string → string;
  toLowerCase : string → string;
  toLocaleString : Z → string;
}.

(** [arr.join(sep)] on an array of strings. *)
Fixpoint join (sep : string) (arr : list string) : string :=
  match arr with
  | [] => ""
  | [s] => s
  | s :: rest => s +:+ sep +:+ join sep rest
  end.

(** [s.includes(key)]: [key] occurs in [s] at some position. *)
Fixpoint includes (s key : string) : bool :=
  String.prefix key s ||
  match s with
  | EmptyString => false
  | String _ s' => includes s' key
  end.

(** [!key] for a string: the empty string is the only falsy one. *)
Definition str_falsy (s : string) : bool := bool_decide (s = "").

(* ===================================================================== *)
(** * simpleFilter *)
(* ===================================================================== *)

Section with_runtime.
Context {R : Runtime}.

(** [[it.name, it.category, ...(it.tags || [])].join(" ").toLowerCase()] *)
Definition haystack (it : Item) : string :=
  toLowerCase
    (join " " (Item.name it :: category_label (Item.category it)
                 :: default [] (Item.tags it))).

Definition simpleFilter (items : list Item) (q : string) : list Item :=
  let key := toLowerCase (trim q) in
  if str_falsy key then items
  else List.filter (λ it, includes (haystack it) key) items.

(* ===================================================================== *)
(** * The clock *)
(* ===================================================================== *)

(** The system clock: [readings k] is what the [k]-th read returns, in ms
    since the epoch; [reads] counts the reads made so far. *)
Record Clock := { readings : nat → Z; reads : nat }.

(** Computations that read the clock. *)
Definition Timed (A : Type) : Type := Clock → A * Clock.

Definition ret {A} (a : A) : Timed A := λ c, (a, c).
Definition bind {A B} (m : Timed A) (k : A → Timed B) : Timed B :=
  λ c, let '(a, c') := m c in k a c'.

(** [Date.now()], and the time value of [new Date()]. *)
Definition Date_now : Timed Z :=
  λ c, (readings c (reads c), {| readings := readings c; reads := S (reads c) |}).

(* ===================================================================== *)
(** * createSavedCombo *)
(* ===================================================================== *)

(** [Object.fromEntries(Object.entries(qty)
       .filter(([, v]) => (v || 0) > 0)
       .map(([k, v]) => [k, Math.max(0, Math.floor(v || 0))]))] *)
Definition compactQty (qty : gmap string number) : gmap string number :=
  (λ v, Math_max 0 (Math_floor (orZero (Some v))))
    <$> filter (λ kv, 0 < orZero (Some kv.2)) qty.

(** The fields are evaluated in the order of the object literal: the id
    reads the clock, then the name (only when the given one is blank), then
    [createdAt]. *)
Definition createSavedCombo (name : string) (qty : gmap string number)
    (targets : option Targets) : Timed SavedCombo :=
  bind Date_now (λ t_id,
  bind (if negb (str_falsy name) && negb (str_falsy (trim name))
        then ret (trim name)
        else bind Date_now (λ t, ret (toLocaleString t))) (λ nm,
  bind Date_now (λ t_created,
  ret {| SavedCombo.id := "save_" +:+ pretty t_id;
         SavedCombo.name := nm;
         SavedCombo.createdAt := int t_created;
         SavedCombo.qty := compactQty qty;
         SavedCombo.targets := targets |}))).

(* ===================================================================== *)
(** * JavaScript values and validateSavedCombo *)
(* ===================================================================== *)

(** The values [JSON.parse] can return, and [undefined]. *)
Inductive JSValue :=
  | JUndefined
  | JNull
  | JBool (b : bool)
  | JNum (n : number)
  | JStr (s : string)
  | JArr (elems : list JSValue)
  | JObj (fields : gmap string JSValue).

Definition typeof (v : JSValue) : string :=
  match v with
  | JUndefined => "undefined"
  | JNull | JArr _ | JObj _ => "object"
  | JBool _ => "boolean"
  | JNum _ => "number"
  | JStr _ => "string"
  end.

(** [ToBoolean]: what [&&] and [filter] test. *)
Definition truthy (v : JSValue) : bool :=
  match v with
  | JUndefined | JNull => false
  | JBool b => b
  | JNum n => negb (bool_decide (n = 0))
  | JStr s => negb (str_falsy s)
  | JArr _ | JObj _ => true
  end.

(** [v.k] for a key [k] that is neither an array index nor [length]: a
    [TypeError] ([None]) on [null] and [undefined], the own property of an
    object, [undefined] anywhere else. *)
Definition get (v : JSValue) (k : string) : option JSValue :=
  match v with
  | JUndefined | JNull => None
  | JObj fields => Some (default JUndefined (fields !! k))
  | _ => Some JUndefined
  end.

(** [a && b]: [b] is evaluated only when [a] is truthy, and an exception
    in either operand is the exception of the whole. *)
Definition and_then (a : option JSValue) (b : unit → option JSValue)
    : option JSValue :=
  match a with
  | None => None
  | Some v => if truthy v then b () else Some v
  end.

Notation "a &&& b" := (and_then a (λ _, b)) (at level 40, left associativity).

(** [typeof e === ty] *)
Definition typeof_is (e : option JSValue) (ty : string) : option JSValue :=
  v ← e; Some (JBool (bool_decide (typeof v = ty))).

Definition validateSavedCombo (s : JSValue) : option JSValue :=
  Some s &&& typeof_is (Some s) "object"
         &&& typeof_is (get s "id") "string"
         &&& typeof_is (get s "name") "string"
         &&& typeof_is (get s "createdAt") "number"
         &&& get s "qty"
         &&& typeof_is (get s "qty") "object".

(** A [Targets] and a [SavedCombo] as the objects they are at run time; a
    field that is [undefined] is left out, which [get] cannot tell apart. *)
Definition Targets_value (t : Targets) : JSValue :=
  JObj (list_to_map
    (omap (λ '(k, v), (λ n, (k, JNum n)) <$> v)
       [("budget", Targets.budget t); ("maxKcal", Targets.maxKcal t);
        ("minProtein", Targets.minProtein t); ("maxSalt", Targets.maxSalt t)])).

Definition SavedCombo_value (s : SavedCombo) : JSValue :=
  JObj (list_to_map
    ([("id", JStr (SavedCombo.id s));
      ("name", JStr (SavedCombo.name s));
      ("createdAt", JNum (SavedCombo.createdAt s));
      ("qty", JObj (JNum <$> SavedCombo.qty s))]
     ++ match SavedCombo.targets s with
        | Some t => [("targets", Targets_value t)]
        | None => []
        end)).

(* ===================================================================== *)
(** * The component state and its save operations *)
(* ===================================================================== *)

Definition MAX_SAVES : Z := 50.

(** [arr.slice(start)] *)
Definition slice {A} (start : Z) (arr : list A) : list A :=
  let len := Z.of_nat (length arr) in
  let k := if decide (start < 0)%Z then Z.max (len + start) 0
           else Z.min start len in
  drop (Z.to_nat k) arr.

(** The persistent state of the component.  [saves] is typed [SavedCombo[]]
    in the source but holds whatever passed [validateSavedCombo] on import,
    hence a list of values. *)
Record AppState := {
  items : list Item;
  qty : gmap string number;
  targets : Targets;
  saves : list JSValue;
  saveName : string;
}.

Definition setSaves (f : list JSValue → list JSValue) (st : AppState) : AppState :=
  {| items := items st; qty := qty st; targets := targets st;
     saves := f (saves st); saveName := saveName st |}.

Definition setSaveName (n : string) (st : AppState) : AppState :=
  {| items := items st; qty := qty st; targets := targets st;
     saves := saves st; saveName := n |}.

Definition setQty (q : gmap string number) (st : AppState) : AppState :=
  {| items := items st; qty := q; targets := targets st;
     saves := saves st; saveName := saveName st |}.

Definition saveCurrent (st : AppState) : Timed AppState :=
  bind (createSavedCombo (saveName st) (qty st) (Some (targets st))) (λ saved,
  bind Date_now (λ t,
  ret (setSaveName (toLocaleString t)
        (setSaves (λ prev, slice (- MAX_SAVES + 1) prev ++ [SavedCombo_value saved])
           st)))).

(** [parsed.filter((s) => validateSavedCombo(s))]; an exception in the
    callback ends the whole. *)
Fixpoint filter_valid (parsed : list JSValue) : option (list JSValue) :=
  match parsed with
  | [] => Some []
  | s :: rest =>
      r ← validateSavedCombo s;
      valid ← filter_valid rest;
      Some (if truthy r then s :: valid else valid)
  end.

(** The [onload] handler of [importSaves], from the parsed document on.
    [None] is the [catch] branch: an alert, and the state as it was. *)
Definition importSaves (parsed : JSValue) (st : AppState) : option AppState :=
  match parsed with
  | JArr elems =>
      valid ← filter_valid elems;
      Some (setSaves (λ prev, slice (- MAX_SAVES) (prev ++ valid)) st)
  | _ => None
  end.

End with_runtime.

(* ===================================================================== *)
(** * greedyOptimizeProtein *)
(* ===================================================================== *)

(** [arr.sort(cmp)]: the stable sort by a comparator, as insertion from the
    right.  [x] goes before the first [y] with [cmp(x, y) <= 0], so equal
    elements keep their order. *)
Fixpoint sort_insert {A} (cmp : A → A → number) (x : A) (l : list A) : list A :=
  match l with
  | [] => [x]
  | y :: l' => if leb (cmp x y) 0 then x :: y :: l' else y :: sort_insert cmp x l'
  end.

Definition sort {A} (cmp : A → A → number) (arr : list A) : list A :=
  foldr (sort_insert cmp) [] arr.

(** [(a.protein || 0) / a.price].  At price 0 JavaScript gives an infinity
    or [NaN] where this gives 0; no property below depends on the order the
    sort produces. *)
Definition ratio (a : Item) : number := orZero (Item.protein a) / Item.price a.

(** The comparator [(a, b) => rb - ra]. *)
Definition by_ratio (a b : Item) : number := ratio b - ratio a.

(** [cost + Math.min(...prices) > budget], with [Infinity] for no price. *)
Definition min_exceeds (cost budget : number) (prices : list number) : bool :=
  match Math_min prices with
  | None => true
  | Some m => gtb (cost + m) budget
  end.

(** The [for (const it of sorted)] loop from the item list [rest] on.  The
    boolean tells whether [break outer] was taken. *)
Fixpoint greedy_for (sorted rest : list Item) (budget : number)
    (next : gmap string number) (cost : number)
    : gmap string number * number * bool :=
  match rest with
  | [] => (next, cost, false)
  | it :: rest' =>
      let '(next1, cost1) :=
        if leb (cost + Item.price it) budget
        then (<[Item.id it := orZero (next !! Item.id it) + 1]> next,
              cost + Item.price it)
        else (next, cost) in
      if bool_decide (length sorted = 0%nat)
         || min_exceeds cost1 budget (map Item.price sorted)
      then (next1, cost1, true)
      else greedy_for sorted rest' budget next1 cost1
  end.

(** The [outer: while (true)] loop; [fuel] bounds the number of passes and
    [None] is a loop that has not ended within it. *)
Fixpoint greedy_while (fuel : nat) (sorted : list Item) (budget : number)
    (next : gmap string number) (cost : number) : option (gmap string number) :=
  match fuel with
  | O => None
  | S fuel' =>
      let '(next1, cost1, broke) := greedy_for sorted sorted budget next cost in
      if broke then Some next1
      else if forallb (λ it, gtb (cost1 + Item.price it) budget) sorted
      then Some next1
      else greedy_while fuel' sorted budget next1 cost1
  end.

(** [targets.budget ?? 1000] *)
Definition active_budget (targets : Targets) : number :=
  default (int 1000) (Targets.budget targets).

(** The ledger [next] that [greedyOptimizeProtein] hands to [setQty]. *)
Definition greedy_ledger (fuel : nat) (items : list Item) (targets : Targets)
    : option (gmap string number) :=
  let budget := active_budget targets in
  let sorted := sort by_ratio items in
  greedy_while fuel sorted budget ∅ 0.

Definition greedyOptimizeProtein (fuel : nat) (st : AppState) : option AppState :=
  next ← greedy_ledger fuel (items st) (targets st);
  Some (setQty next st).

(* ===================================================================== *)
(** * An ASCII runtime, for running the definitions *)
(* ===================================================================== *)

Definition is_space (c : ascii) : bool :=
  let n := nat_of_ascii c in
  bool_decide (n = 32%nat) || (bool_decide (9 ≤ n)%nat && bool_decide (n ≤ 13)%nat).

Fixpoint trim_start (s : string) : string :=
  match s with
  | String c s' => if is_space c then trim_start s' else s
  | EmptyString => EmptyString
  end.

Definition ascii_trim (s : string) : string :=
  String.rev (trim_start (String.rev (trim_start s))).

Definition lower_char (c : ascii) : ascii :=
  let n := nat_of_ascii c in
  if bool_decide (65 ≤ n)%nat && bool_decide (n ≤ 90)%nat
  then ascii_of_nat (n + 32) else c.

Fixpoint ascii_toLowerCase (s : string) : string :=
  match s with
  | EmptyString => EmptyString
  | String c s' => String (lower_char c) (ascii_toLowerCase s')
  end.

(** Stands in for the locale rendering: the time value in decimal. *)
Definition plain_date (t : Z) : string := "t=" +:+ pretty t.

Definition ascii_runtime : Runtime :=
  {| trim := ascii_trim; toLowerCase := ascii_toLowerCase;
     toLocaleString := plain_date |}.

(** A clock that starts at [t0] and advances one ms per read. *)
Definition ticking (t0 : Z) : Clock :=
  {| readings := λ k, (t0 + Z.of_nat k)%Z; reads := 0 |}.

(* ===================================================================== *)
(** * What the specification says, in its own terms *)
(* ===================================================================== *)

(** Σ over the items of [f]. *)
Fixpoint sigma (f : Item → number) (items : list Item) : number :=
  match items with
  | [] => 0
  | it :: rest => f it + sigma f rest
  end.




(** An upper bound [target] on [value] holds, or there is none. *)
Definition within_upper (target : option number) (value : number) : Prop :=
  match target with
  | None => True
  | Some m => value ≤ m
  end.

(** A lower bound [target] on [value] holds, or there is none. *)
Definition within_lower (target : option number) (value : number) : Prop :=
  match target with
  | None => True
  | Some m => m ≤ value
  end.


(** A JavaScript object (arrays are objects, [null] is not). *)
Definition is_object (v : JSValue) : Prop :=
  match v with
  | JObj _ | JArr _ => True
  | _ => False
  end.

(** The field [k] of a candidate, [undefined] when it has none. *)
Definition field (s : JSValue) (k : string) : JSValue :=
  match s with
  | JObj fields => default JUndefined (fields !! k)
  | _ => JUndefined
  end.

(** "candidate must be an object with string [id], string [name], numeric
    [createdAt], and an object-typed [qty]" *)
Definition well_shaped (s : JSValue) : Prop :=
  is_object s
  ∧ typeof (field s "id") = "string"
  ∧ typeof (field s "name") = "string"
  ∧ typeof (field s "createdAt") = "number"
  ∧ is_object (field s "qty").



(** [next[it.id] = (next[it.id] || 0) + 1] *)
Definition bump (it : Item) (next : gmap string number) : gmap string number :=
  <[Item.id it := orZero (next !! Item.id it) + 1]> next.


(* ===================================================================== *)
(** * The quantity controls of the component *)
(* ===================================================================== *)









(** [s.id !== id] for a string [id]. *)
Definition id_differs (v : JSValue) (id : string) : bool :=
  match v with
  | JStr s => negb (bool_decide (s = id))
  | _ => true
  end.

(** [prev.filter((s) => s.id !== id)]; reading [id] off [null] or
    [undefined] throws. *)
Fixpoint filter_other_ids (id : string) (prev : list JSValue)
    : option (list JSValue) :=
  match prev with
  | [] => Some []
  | s :: rest =>
      v ← get s "id";
      kept ← filter_other_ids id rest;
      Some (if id_differs v id then s :: kept else kept)
  end.

Definition deleteSave (id : string) (st : AppState) : option AppState :=
  kept ← filter_other_ids id (saves st);
  Some (setSaves (λ _, kept) st).

(** [Object.keys(s.qty).filter((id) => !items.some((it) => it.id === id)).length]:
    the entries of a saved ledger that no item of the menu answers to. *)
Definition missing (items : list Item) (saved : gmap string number) : nat :=
  length (List.filter
            (λ id, negb (existsb (λ it, bool_decide (Item.id it = id)) items))
            (map fst (map_to_list saved))).

(* ===================================================================== *)
(** * The menu list: groups and the buttons of a group *)
(* ===================================================================== *)








(* ===================================================================== *)
(** * randomUnderBudget *)
(* ===================================================================== *)












(* ===================================================================== *)
(** * The JSON editor *)
(* ===================================================================== *)

(** What [tryApply] reports instead of applying: the errors it throws
    itself, with the row they name, and the [TypeError] of reading a field
    off [null]. *)
Inductive EditError :=
  | NotAnArray
  | NoId (row : nat)
  | NoName (row : nat)
  | NoCategory (row : nat)
  | PriceNotNumber (row : nat)
  | TypeError (row : nat).

(** The callback of [next.forEach((it, i) => ...)]; [None] when it returns
    without throwing. *)
Definition check_row (i : nat) (it : JSValue) : option EditError :=
  match get it "id" with
  | None => Some (TypeError i)
  | Some v =>
  if negb (truthy v) then Some (NoId i) else
  match get it "name" with
  | None => Some (TypeError i)
  | Some v =>
  if negb (truthy v) then Some (NoName i) else
  match get it "category" with
  | None => Some (TypeError i)
  | Some v =>
  if negb (truthy v) then Some (NoCategory i) else
  match get it "price" with
  | None => Some (TypeError i)
  | Some v =>
  if negb (bool_decide (typeof v = "number")) then Some (PriceNotNumber i)
  else None
  end end end end.

Fixpoint check_rows (i : nat) (rows : list JSValue) : option EditError :=
  match rows with
  | [] => None
  | it :: rest =>
      match check_row i it with
      | Some e => Some e
      | None => check_rows (S i) rest
      end
  end.

(** [tryApply] from the parsed text on: the error alerted, or the array
    handed to [setItems]. *)
Definition tryApply (parsed : JSValue) : EditError + list JSValue :=
  match parsed with
  | JArr rows =>
      match check_rows 0 rows with
      | Some e => inl e
      | None => inr rows
      end
  | _ => inl NotAnArray
  end.

(* ===================================================================== *)
(** * byCategory *)
(* ===================================================================== *)

Global Instance Category_eq_dec : EqDecision Category.
Proof. solve_decision. Defined.

(** A [Map<Category, Item[]>]: the entries in the order their keys were
    first set. *)
Fixpoint Map_get (m : list (Category * list Item)) (c : Category)
    : option (list Item) :=
  match m with
  | [] => None
  | (c', arr) :: m' => if decide (c' = c) then Some arr else Map_get m' c
  end.

Fixpoint Map_set (m : list (Category * list Item)) (c : Category)
    (arr : list Item) : list (Category * list Item) :=
  match m with
  | [] => [(c, arr)]
  | (c', arr') :: m' =>
      if decide (c' = c) then (c, arr) :: m' else (c', arr') :: Map_set m' c arr
  end.

(** [const arr = m.get(it.category) || []; arr.push(it); m.set(it.category, arr)]
    for each item in turn. *)
Definition byCategory (items : list Item) : list (Category * list Item) :=
  foldl (λ m it,
           let arr := default [] (Map_get m (Item.category it)) in
           Map_set m (Item.category it) (arr ++ [it]))
        [] items.



(** A row the editor lets pass: not [null] or [undefined], with an [id], a
    [name] and a [category] that are truthy and a [price] that is a
    number. *)
Definition row_ok (it : JSValue) : Prop :=
  it ≠ JNull ∧ it ≠ JUndefined
  ∧ truthy (field it "id") = true
  ∧ truthy (field it "name") = true
  ∧ truthy (field it "category") = true
  ∧ typeof (field it "price") = "number".


(* ===================================================================== *)
(** * Arithmetic on [number] *)
(* ===================================================================== *)



Lemma leb_le a b : leb a b = true ↔ a ≤ b.
Proof. unfold leb. apply bool_decide_eq_true. Qed.


Lemma geb_le a b : geb a b = true ↔ b ≤ a.
Proof. unfold geb. apply bool_decide_eq_true. Qed.

Lemma gtb_false_le a b : gtb a b = false ↔ a ≤ b.
Proof.
  unfold gtb. rewrite bool_decide_eq_false. symmetry. apply Qcle_ngt.
Qed.


Lemma Math_max_0_nonneg v : 0 ≤ v → Math_max 0 v = v.
Proof. intros Hv. unfold Math_max. destruct (decide (0 ≤ v)); [done | contradiction]. Qed.


Lemma foldl_plus acc xs : foldl Qcplus acc xs = acc + foldl Qcplus 0 xs.
Proof.
  revert acc. induction xs as [| x xs IH]; intros acc; simpl.
  - ring.
  - rewrite (IH (acc + x)), (IH (0 + x)). ring.
Qed.

Lemma sum_cons x xs : sum (x :: xs) = x + sum xs.
Proof. unfold sum. simpl. rewrite foldl_plus. ring. Qed.

Lemma sum_map_sigma f items : sum (map f items) = sigma f items.
Proof.
  induction items as [| it rest IH]; [done |].
  simpl map. rewrite sum_cons, IH. done.
Qed.

Lemma sigma_ext f g items :
  (∀ it, it ∈ items → f it = g it) → sigma f items = sigma g items.
Proof.
  induction items as [| it rest IH]; intros Hfg; [done |].
  simpl. rewrite (Hfg it), IH; [done | | ].
  - intros it' Hin. apply Hfg. by right.
  - by left.
Qed.



(* ===================================================================== *)
(** * computeTotals: the sums, missing and negative entries, linearity *)
(* ===================================================================== *)











(** The example of the specification and of the self-tests. *)
Example computeTotals_example :
  let a := Item.mk "a" "A" Shushoku (int 100) None (Some (int 10)) None None None None in
  let b := Item.mk "b" "B" Okazu (int 200) None (Some (int 5)) None None None None in
  let t := computeTotals [a; b] (<["a" := int 2]> (<["b" := int 1]> ∅)) in
  Totals.price t = int 400 ∧ Totals.protein t = int 25 ∧ Totals.count t = int 3.
Proof. cbn zeta. repeat split; apply Qc_is_canon; reflexivity. Qed.

(* ===================================================================== *)
(** * passFail *)
(* ===================================================================== *)

(** C4. Each dimension passes when its target is unset; otherwise budget,
    kcal and salt pass exactly when the total is at most the target, and
    protein exactly when the total is at least the target, the target value
    itself passing. *)
Theorem passFail_rules (totals : Totals) (targets : Targets) :
  let r := passFail targets totals in
  (PassFail.budget r = true
     ↔ within_upper (Targets.budget targets) (Totals.price totals))
  ∧ (PassFail.kcal r = true
     ↔ within_upper (Targets.maxKcal targets) (Totals.kcal totals))
  ∧ (PassFail.protein r = true
     ↔ within_lower (Targets.minProtein targets) (Totals.protein totals))
  ∧ (PassFail.salt r = true
     ↔ within_upper (Targets.maxSalt targets) (Totals.salt totals)).
Proof.
  destruct targets as [[b |] [k |] [p |] [s |]];
    unfold passFail, within_upper, within_lower; simpl;
    rewrite ?leb_le, ?geb_le; tauto.
Qed.

(** An unset target passes whatever the totals are. *)
Lemma passFail_unset totals :
  passFail (Targets.mk None None None None) totals
  = PassFail.mk true true true true.
Proof. reflexivity. Qed.

(** The boundary examples: a price of 1000 passes a budget of 1000, a price
    of 1001 fails it, and 19.999 g of protein fail a minimum of 20 g. *)
Example passFail_boundaries :
  let only_budget := Targets.mk (Some (int 1000)) None None None in
  let only_protein := Targets.mk None None (Some (int 20)) None in
  let priced p := Totals.mk 0 p 0 0 0 0 0 in
  PassFail.budget (passFail only_budget (priced (int 1000))) = true
  ∧ PassFail.budget (passFail only_budget (priced (int 1001))) = false
  ∧ PassFail.protein
      (passFail only_protein (Totals.mk 0 0 0 (int 19999 / int 1000) 0 0 0))
    = false
  ∧ PassFail.protein (passFail only_protein (Totals.mk 0 0 0 (int 20) 0 0 0))
    = true.
Proof. cbn zeta. repeat split; vm_compute; reflexivity. Qed.

(* ===================================================================== *)
(** * simpleFilter *)
(* ===================================================================== *)

Lemma str_falsy_true s : str_falsy s = true ↔ s = "".
Proof. unfold str_falsy. apply bool_decide_eq_true. Qed.

Lemma str_falsy_false s : str_falsy s = false ↔ s ≠ "".
Proof. unfold str_falsy. apply bool_decide_eq_false. Qed.







Lemma filter_sublist {A} (f : A → bool) l : List.filter f l `sublist_of` l.
Proof.
  induction l as [| x l IH]; simpl; [constructor |].
  destruct (f x); by constructor.
Qed.



(** The query is matched without regard to ASCII case, and a blank query
    keeps every item. *)
Example simpleFilter_examples :
  let p1 := Item.mk "p1" "Pepe" Shushoku (int 400) None None None None None
              (Some ["pasta"]) in
  let p2 := Item.mk "p2" "Hamburg" Okazu (int 500) None None None None None None in
  @simpleFilter ascii_runtime [p1; p2] "PASTA" = [p1]
  ∧ @simpleFilter ascii_runtime [p1; p2] "burg" = [p2]
  ∧ @simpleFilter ascii_runtime [p1; p2] "   " = [p1; p2]
  ∧ @simpleFilter ascii_runtime [p1; p2] "主食" = [p1].
Proof. cbn zeta. repeat split; reflexivity. Qed.

(* ===================================================================== *)
(** * createSavedCombo *)
(* ===================================================================== *)

Lemma compactQty_lookup qty k :
  compactQty qty !! k
  = match qty !! k with
    | Some v => if decide (0 < v) then Some (Math_max 0 (Math_floor v)) else None
    | None => None
    end.
Proof.
  unfold compactQty. rewrite lookup_fmap.
  destruct (qty !! k) as [v |] eqn:Hk.
  - destruct (decide (0 < v)) as [Hv | Hv].
    + erewrite map_lookup_filter_Some_2; [done | done | done].
    + rewrite map_lookup_filter_None_2; [done |]. right. intros v' Hv'.
      simpl. congruence.
  - rewrite map_lookup_filter_None_2; [done |]. by left.
Qed.


Lemma Math_floor_int z : Math_floor (int z) = int z.
Proof.
  unfold Math_floor. f_equal.
  change (this (int z)) with (inject_Z z). apply Qfloor_Z.
Qed.

(** On entries that are integers the compaction keeps exactly the positive
    ones, unchanged. *)
Lemma compactQty_integers (ledger : gmap string Z) k :
  compactQty (int <$> ledger) !! k
  = match ledger !! k with
    | Some z => if decide (0 < z)%Z then Some (int z) else None
    | None => None
    end.
Proof.
  rewrite compactQty_lookup, lookup_fmap.
  destruct (ledger !! k) as [z |]; [simpl | done].
  assert (Hlt : 0 < int z ↔ (0 < z)%Z).
  { unfold int, Qc_of_Z, Qclt. simpl. unfold Qlt. simpl. lia. }
  destruct (decide (0 < int z)) as [Hv | Hv], (decide (0 < z)%Z) as [Hz | Hz];
    try tauto.
  f_equal. rewrite Math_floor_int.
  apply Math_max_0_nonneg. by apply Qclt_le_weak.
Qed.

(** The example of the specification: [{a:2, b:0, c:-5}] is saved as
    [{a:2}]. *)
Example compactQty_example :
  compactQty (<["a" := int 2]> (<["b" := int 0]> (<["c" := int (-5)]> ∅)))
  = {[ "a" := int 2 ]}.
Proof.
  apply map_eq. intros k.
  change (<["a" := int 2]> (<["b" := int 0]> (<["c" := int (-5)]> ∅)))
    with (int <$> (<["a" := 2%Z]> (<["b" := 0%Z]> (<["c" := (-5)%Z]> ∅)))
            : gmap string number).
  rewrite compactQty_integers.
  destruct (decide (k = "a")) as [-> | Ha]; [done |].
  rewrite lookup_insert_ne, lookup_singleton_ne by done.
  destruct (decide (k = "b")) as [-> | Hb]; [done |].
  rewrite lookup_insert_ne by done.
  destruct (decide (k = "c")) as [-> | Hc]; [done |].
  by rewrite lookup_insert_ne.
Qed.

Section createSavedCombo_facts.
Context {R : Runtime}.

Lemma createSavedCombo_qty name qty targets clock :
  SavedCombo.qty (createSavedCombo name qty targets clock).1 = compactQty qty.
Proof.
  unfold createSavedCombo, bind, ret, Date_now. simpl.
  destruct (negb (str_falsy name) && negb (str_falsy (trim name))); done.
Qed.

(** C1, at the entry [a: 1/2]: the entry passes the test [v > 0] and is
    then floored, so the saved ledger holds the zero entry [a: 0]. *)
Theorem createSavedCombo_fraction name targets clock :
  SavedCombo.qty
    (createSavedCombo name {[ "a" := int 1 / int 2 ]} targets clock).1
  = {[ "a" := int 0 ]}.
Proof.
  rewrite createSavedCombo_qty. apply map_eq. intros k.
  rewrite compactQty_lookup.
  destruct (decide (k = "a")) as [-> | Ha].
  - rewrite !lookup_singleton_eq.
    destruct (decide (0 < int 1 / int 2)) as [Hv | Hv].
    + f_equal.
    + exfalso. apply Hv. reflexivity.
  - by rewrite !lookup_singleton_ne.
Qed.

(** C10. A name whose trimmed form is not empty is saved trimmed; a name
    that is blank is saved as the locale rendering of the clock's second
    reading; and so the saved name is never empty. *)
Theorem createSavedCombo_name name qty targets clock :
  trim "" = "" →
  (∀ t, toLocaleString t ≠ "") →
  let s := (createSavedCombo name qty targets clock).1 in
  (trim name ≠ "" → SavedCombo.name s = trim name)
  ∧ (trim name = "" →
     SavedCombo.name s = toLocaleString (readings clock (S (reads clock))))
  ∧ SavedCombo.name s ≠ "".
Proof.
  intros Htrim Hdate. cbn zeta.
  unfold createSavedCombo, bind, ret, Date_now. simpl.
  destruct (str_falsy name) eqn:Hname; simpl.
  - apply str_falsy_true in Hname. subst name. rewrite Htrim.
    repeat split; [done | apply Hdate].
  - destruct (str_falsy (trim name)) eqn:Htn; simpl.
    + apply str_falsy_true in Htn. repeat split; [done | apply Hdate].
    + apply str_falsy_false in Htn. repeat split; done.
Qed.

End createSavedCombo_facts.

Lemma createSavedCombo_name_witness :
  @trim ascii_runtime "" = ""
  ∧ (∀ t, @toLocaleString ascii_runtime t ≠ "")
  ∧ SavedCombo.name
      (@createSavedCombo ascii_runtime "  lunch " ∅ None (ticking 1000)).1
    = "lunch"
  ∧ SavedCombo.name
      (@createSavedCombo ascii_runtime "   " ∅ None (ticking 1000)).1
    ≠ "".
Proof.
  assert (Hdate : ∀ t, @toLocaleString ascii_runtime t ≠ "") by done.
  split; [reflexivity |]. split; [exact Hdate |].
  split; [reflexivity |].
  apply (@createSavedCombo_name ascii_runtime "   " ∅ None (ticking 1000));
    [reflexivity | exact Hdate].
Defined.

(* ===================================================================== *)
(** * validateSavedCombo *)
(* ===================================================================== *)

Lemma typeof_is_Some v ty :
  typeof_is (Some v) ty = Some (JBool (bool_decide (typeof v = ty))).
Proof. reflexivity. Qed.

Lemma is_object_truthy v : is_object v → truthy v = true ∧ typeof v = "object".
Proof. by destruct v. Qed.

Lemma typeof_object v : typeof v = "object" → truthy v = true → is_object v.
Proof. by destruct v. Qed.

(** The value of the [&&] chain on an object, field by field. *)
Lemma validateSavedCombo_JObj fields :
  validateSavedCombo (JObj fields)
  = let s := JObj fields in
    if negb (bool_decide (typeof (field s "id") = "string")) then Some (JBool false)
    else if negb (bool_decide (typeof (field s "name") = "string")) then Some (JBool false)
    else if negb (bool_decide (typeof (field s "createdAt") = "number")) then Some (JBool false)
    else if negb (truthy (field s "qty")) then Some (field s "qty")
    else Some (JBool (bool_decide (typeof (field s "qty") = "object"))).
Proof.
  unfold validateSavedCombo, field, get. cbn zeta.
  rewrite !typeof_is_Some.
  change (typeof (JObj fields)) with "object".
  rewrite (bool_decide_eq_true_2 ("object" = "object")) by done.
  unfold and_then at 5 6. cbn [truthy].
  repeat (unfold and_then at 1;
          match goal with
          | |- context [bool_decide ?P] => destruct (bool_decide P); cbn [truthy negb]
          | _ => idtac
          end; try done).
  all: by destruct (truthy _).
Qed.

Lemma and_then_falsy v k : truthy v = false → and_then (Some v) k = Some v.
Proof. intros Hv. unfold and_then. by rewrite Hv. Qed.

Lemma and_then_truthy v k : truthy v = true → and_then (Some v) k = k ().
Proof. intros Hv. unfold and_then. by rewrite Hv. Qed.

(** Anything that is not an object stops the chain at once. *)
Lemma validateSavedCombo_non_object s :
  typeof s ≠ "object" →
  validateSavedCombo s = Some (if truthy s then JBool false else s).
Proof.
  intros Hty. unfold validateSavedCombo.
  destruct (truthy s) eqn:Hs.
  - rewrite (and_then_truthy s) by done. rewrite typeof_is_Some.
    rewrite bool_decide_eq_false_2 by done.
    by rewrite !and_then_falsy.
  - by rewrite !and_then_falsy.
Qed.

Lemma validateSavedCombo_total s :
  ∃ v, validateSavedCombo s = Some v
       ∧ (truthy v = true ↔ well_shaped s)
       ∧ (truthy v = true → v = JBool true).
Proof.
  destruct s as [| | b | n | str | elems | fields].
  1, 2, 6: (eexists; split; [reflexivity |]; unfold well_shaped; simpl;
            split; [split; [done | tauto] | done]).
  1, 2, 3: (rewrite validateSavedCombo_non_object by done;
            eexists; split; [reflexivity |]; unfold well_shaped;
            match goal with
            | |- context [if truthy ?x then _ else _] =>
                destruct (truthy x) eqn:Ht
            end; rewrite ?Ht; simpl;
            (split; [split; [done | tauto] | done])).
  (* an object *)
  rewrite validateSavedCombo_JObj. cbn zeta. unfold well_shaped.
  set (s := JObj fields).
  destruct (bool_decide (typeof (field s "id") = "string")) eqn:Hid; cbn [negb].
  2: { apply bool_decide_eq_false in Hid.
       eexists; split; [reflexivity |]. cbn [truthy].
       split; [split; [done | tauto] | done]. }
  apply bool_decide_eq_true in Hid.
  destruct (bool_decide (typeof (field s "name") = "string")) eqn:Hname; cbn [negb].
  2: { apply bool_decide_eq_false in Hname.
       eexists; split; [reflexivity |]. cbn [truthy].
       split; [split; [done | tauto] | done]. }
  apply bool_decide_eq_true in Hname.
  destruct (bool_decide (typeof (field s "createdAt") = "number")) eqn:Hat; cbn [negb].
  2: { apply bool_decide_eq_false in Hat.
       eexists; split; [reflexivity |]. cbn [truthy].
       split; [split; [done | tauto] | done]. }
  apply bool_decide_eq_true in Hat.
  destruct (truthy (field s "qty")) eqn:Hq; cbn [negb].
  - destruct (bool_decide (typeof (field s "qty") = "object")) eqn:Hty.
    + apply bool_decide_eq_true in Hty.
      eexists; split; [reflexivity |]. cbn [truthy]. split; [| done].
      split; [intros _ | done].
      repeat split; try done. by apply typeof_object.
    + apply bool_decide_eq_false in Hty.
      eexists; split; [reflexivity |]. cbn [truthy]. split; [| done].
      split; [done |]. intros (_ & _ & _ & _ & Hobj).
      by apply is_object_truthy in Hobj as [_ ?].
  - eexists; split; [reflexivity |]. rewrite Hq. split; [| done].
    split; [done |]. intros (_ & _ & _ & _ & Hobj).
    apply is_object_truthy in Hobj as [? _]. congruence.
Qed.

(** C9. [validateSavedCombo] never throws; its result is truthy, and then
    the boolean [true], exactly for an object with a string [id], a string
    [name], a numeric [createdAt] and an object [qty]; and the result is the
    same whatever object [qty] is and whatever [targets] is. *)
Theorem validateSavedCombo_spec (s : JSValue) :
  (validateSavedCombo s = Some (JBool true) ↔ well_shaped s)
  ∧ (∃ v, validateSavedCombo s = Some v ∧ (truthy v = true ↔ well_shaped s))
  ∧ (∀ fields q1 q2 t,
       validateSavedCombo (JObj (<["qty" := JObj q1]> fields))
       = validateSavedCombo
           (JObj (<["qty" := JObj q2]> (<["targets" := t]> fields)))).
Proof.
  destruct (validateSavedCombo_total s) as (v & Hv & Hiff & Htrue).
  split; [| split].
  - rewrite Hv. split.
    + intros [= ->]. by apply Hiff.
    + intros Hs. f_equal. by apply Htrue, Hiff.
  - by exists v.
  - intros fields q1 q2 t. rewrite !validateSavedCombo_JObj. cbn zeta.
    unfold field.
    rewrite !lookup_insert_eq.
    rewrite !(lookup_insert_ne _ "qty") by done.
    rewrite !(lookup_insert_ne _ "targets") by done.
    done.
Qed.

(** What [createSavedCombo] returns passes the validation. *)
Lemma validateSavedCombo_created {R : Runtime} name qty targets clock :
  validateSavedCombo
    (SavedCombo_value (createSavedCombo name qty targets clock).1)
  = Some (JBool true).
Proof.
  set (sc := (createSavedCombo name qty targets clock).1).
  unfold SavedCombo_value. rewrite validateSavedCombo_JObj. cbn zeta.
  unfold field.
  destruct (SavedCombo.targets sc); reflexivity.
Qed.

Example validateSavedCombo_examples :
  validateSavedCombo JNull = Some JNull
  ∧ validateSavedCombo JUndefined = Some JUndefined
  ∧ validateSavedCombo (JArr []) = Some (JBool false)
  ∧ validateSavedCombo (JObj ∅) = Some (JBool false)
  ∧ validateSavedCombo
      (JObj (list_to_map [("id", JStr "s1"); ("name", JStr "n");
                          ("createdAt", JNum (int 5)); ("qty", JNull)]))
    = Some JNull
  ∧ validateSavedCombo
      (JObj (list_to_map [("id", JStr "s1"); ("name", JStr "n");
                          ("createdAt", JNum (int 5));
                          ("qty", JObj {[ "a" := JStr "many" ]});
                          ("targets", JNum (int 7))]))
    = Some (JBool true).
Proof. repeat split; reflexivity. Qed.

(* ===================================================================== *)
(** * The capacity of the saves *)
(* ===================================================================== *)

(** [slice] with a negative start keeps the last [n] elements. *)
Lemma slice_last {A} (n : nat) (arr : list A) :
  (0 < n)%nat →
  slice (- Z.of_nat n) arr = drop (length arr - n) arr.
Proof.
  intros Hn. unfold slice. cbn zeta.
  destruct (decide (- Z.of_nat n < 0)%Z) as [_ | Hge]; [| lia].
  f_equal. lia.
Qed.

Lemma slice_last_length {A} (n : nat) (arr : list A) :
  (0 < n)%nat →
  length (slice (- Z.of_nat n) arr) = (length arr `min` n)%nat.
Proof. intros Hn. rewrite slice_last by done. rewrite length_drop. lia. Qed.

Lemma slice_last_split {A} (n : nat) (arr : list A) :
  (0 < n)%nat →
  arr = take (length arr - n) arr ++ slice (- Z.of_nat n) arr.
Proof. intros Hn. rewrite slice_last by done. by rewrite take_drop. Qed.

Lemma filter_valid_total parsed : ∃ valid, filter_valid parsed = Some valid.
Proof.
  induction parsed as [| s rest [valid IH]]; simpl; [by eexists |].
  destruct (validateSavedCombo_total s) as (v & -> & _). simpl.
  rewrite IH. simpl. by eexists.
Qed.

(** The callback's verdict is the shape check, in the order of the file. *)
Lemma filter_valid_well_shaped parsed valid :
  filter_valid parsed = Some valid →
  valid `sublist_of` parsed ∧ ∀ s, s ∈ valid ↔ s ∈ parsed ∧ well_shaped s.
Proof.
  revert valid. induction parsed as [| s rest IH]; simpl; intros valid.
  - intros [= <-]. split; [done |]. intros s. rewrite !elem_of_nil. tauto.
  - destruct (validateSavedCombo_total s) as (v & -> & Hv & _). simpl.
    destruct (filter_valid rest) as [valid' |]; [simpl | done].
    destruct (IH valid' eq_refl) as [Hsub Hin].
    intros [= <-]. destruct (truthy v) eqn:Ht.
    + split; [by constructor |]. intros s'.
      rewrite !elem_of_cons, Hin. split.
      * intros [-> | [? ?]]; [| tauto]. split; [by left | by apply Hv].
      * intros [[-> | ?] ?]; tauto.
    + split; [by constructor |]. intros s'.
      rewrite elem_of_cons, Hin. split; [tauto |].
      intros [[-> | ?] Hs]; [| tauto].
      apply Hv in Hs. congruence.
Qed.

Section saves_capacity.
Context {R : Runtime}.

(** C8. After [saveCurrent] and after [importSaves] the collection holds
    at most 50 entries: what was appended to the previous collection is cut
    to its last 50, so the entries dropped are the first ones of the list,
    whatever their [createdAt]. *)
Theorem saves_bounded (st : AppState) :
  (∀ clock,
     let st' := (saveCurrent st clock).1 in
     ∃ saved dropped,
       saves st ++ [saved] = dropped ++ saves st'
       ∧ length (saves st') = ((length (saves st) + 1) `min` 50)%nat
       ∧ (length (saves st') ≤ 50)%nat)
  ∧ (∀ elems,
       ∃ st' valid dropped,
         importSaves (JArr elems) st = Some st'
         ∧ filter_valid elems = Some valid
         ∧ saves st ++ valid = dropped ++ saves st'
         ∧ length (saves st') = ((length (saves st) + length valid) `min` 50)%nat
         ∧ (length (saves st') ≤ 50)%nat).
Proof.
  split.
  - intros clock. cbn zeta.
    unfold saveCurrent, bind, ret, Date_now.
    destruct (createSavedCombo _ _ _ clock) as [saved clock'] eqn:Hsaved.
    simpl. exists (SavedCombo_value saved), (take (length (saves st) - 49) (saves st)).
    change (- MAX_SAVES + 1)%Z with (- Z.of_nat 49)%Z.
    split; [| split].
    + rewrite app_assoc. f_equal. apply slice_last_split. lia.
    + rewrite length_app, slice_last_length by lia. simpl. lia.
    + rewrite length_app, slice_last_length by lia. simpl. lia.
  - intros elems. destruct (filter_valid_total elems) as [valid Hvalid].
    unfold importSaves. rewrite Hvalid. simpl.
    eexists _, valid, (take (length (saves st ++ valid) - 50) (saves st ++ valid)).
    change (- MAX_SAVES)%Z with (- Z.of_nat 50)%Z.
    split; [reflexivity |]. split; [done |]. simpl. split; [| split].
    + apply slice_last_split. lia.
    + rewrite slice_last_length, length_app by lia. done.
    + rewrite slice_last_length by lia. lia.
Qed.

(** Anything but an array is refused and leaves the state as it was. *)
Lemma importSaves_not_array parsed st :
  (∀ elems, parsed ≠ JArr elems) → importSaves parsed st = None.
Proof. intros Harr. destruct parsed; try done. by destruct (Harr elems). Qed.

End saves_capacity.

(** Fifty saves made at times 100, 101, ... and an import of one save made at
    time 1: the entry dropped is the first of the list, made at time 100,
    and the older imported one stays. *)
Example importSaves_drops_by_position :
  let save_at (t : nat) :=
    JObj (list_to_map [("id", JStr ("save_" +:+ pretty t)); ("name", JStr "n");
                       ("createdAt", JNum (int (Z.of_nat t))); ("qty", JObj ∅)]) in
  let prev := save_at <$> seq 100 50 in
  let st := {| items := []; qty := ∅; targets := Targets.mk None None None None;
               saves := prev; saveName := "" |} in
  (saves <$> importSaves (JArr [save_at 1%nat]) st)
  = Some (drop 1 prev ++ [save_at 1%nat]).
Proof. cbn zeta. vm_compute. reflexivity. Qed.

(* ===================================================================== *)
(** * greedyOptimizeProtein: the sort, the minimum, one pass *)
(* ===================================================================== *)



(** A sort of a single element does not call the comparator. *)
Lemma sort_singleton {A} (cmp : A → A → number) x : sort cmp [x] = [x].
Proof. reflexivity. Qed.











(** The body of the [for] loop for one item: the ledger and the cost after
    the conditional purchase. *)
Lemma greedy_for_cons sorted it rest budget next cost :
  greedy_for sorted (it :: rest) budget next cost
  = let next1 := if leb (cost + Item.price it) budget then bump it next else next in
    let cost1 := if leb (cost + Item.price it) budget
                 then cost + Item.price it else cost in
    if bool_decide (length sorted = 0%nat)
       || min_exceeds cost1 budget (map Item.price sorted)
    then (next1, cost1, true)
    else greedy_for sorted rest budget next1 cost1.
Proof. simpl. unfold bump. by destruct (leb (cost + Item.price it) budget). Qed.

Lemma greedy_while_S fuel sorted budget next cost :
  greedy_while (S fuel) sorted budget next cost
  = let '(next1, cost1, broke) := greedy_for sorted sorted budget next cost in
    if broke then Some next1
    else if forallb (λ it, gtb (cost1 + Item.price it) budget) sorted
    then Some next1
    else greedy_while fuel sorted budget next1 cost1.
Proof. reflexivity. Qed.

Section greedy_invariant.
Variables (sorted : list Item) (budget : number).
Hypothesis sorted_ids : NoDup (map Item.id sorted).



End greedy_invariant.


(* ===================================================================== *)
(** * greedyOptimizeProtein: the end of the loop *)
(* ===================================================================== *)

Lemma int_0 : int 0 = 0.
Proof. by apply Qc_is_canon. Qed.




Section greedy_termination.
Variables (sorted : list Item) (budget pmin : number).
Hypothesis prices_positive : ∀ it, it ∈ sorted → 0 < Item.price it.
Hypothesis pmin_least : Math_min (map Item.price sorted) = Some pmin.








End greedy_termination.

(** More passes than needed change nothing. *)
Lemma greedy_while_more_fuel fuel fuel' sorted budget next cost result :
  greedy_while fuel sorted budget next cost = Some result →
  (fuel ≤ fuel')%nat →
  greedy_while fuel' sorted budget next cost = Some result.
Proof.
  revert fuel' next cost. induction fuel as [| fuel IH];
    intros fuel' next cost Hrun Hle; [done |].
  destruct fuel' as [| fuel']; [lia |].
  rewrite greedy_while_S in *.
  destruct (greedy_for sorted sorted budget next cost) as [[next1 cost1] broke].
  destruct broke; [done |].
  destruct (forallb _ sorted); [done |].
  apply IH; [done | lia].
Qed.


(** The loop gives one ledger, whatever the number of passes allowed. *)
Lemma greedy_ledger_unique fuel fuel' items targets next next' :
  greedy_ledger fuel items targets = Some next →
  greedy_ledger fuel' items targets = Some next' →
  next = next'.
Proof.
  unfold greedy_ledger. cbn zeta. intros H1 H2.
  apply (greedy_while_more_fuel _ (fuel `max` fuel')) in H1; [| lia].
  apply (greedy_while_more_fuel _ (fuel `max` fuel')) in H2; [| lia].
  congruence.
Qed.

(* ===================================================================== *)
(** * greedyOptimizeProtein: an item that costs nothing *)
(* ===================================================================== *)

(** With a single item of price 0 and a budget that is not negative, every
    pass buys the item once more and neither test for leaving the loop
    holds. *)
Lemma greedy_while_free_item it budget fuel next :
  Item.price it = 0 → 0 ≤ budget →
  greedy_while fuel [it] budget next 0 = None.
Proof.
  intros Hfree Hb. revert next. induction fuel as [| fuel IH]; intros next; [done |].
  rewrite greedy_while_S, greedy_for_cons. cbn zeta.
  unfold min_exceeds. simpl Math_min. rewrite Hfree.
  replace (0 + 0) with (Q2Qc 0) by ring.
  assert (Hadd : leb 0 budget = true) by by apply leb_le.
  rewrite Hadd. replace (0 + 0) with (Q2Qc 0) by ring.
  assert (Hgt : gtb 0 budget = false) by by apply gtb_false_le.
  rewrite Hgt. simpl. rewrite Hfree.
  replace (0 + 0) with (Q2Qc 0) by ring. rewrite Hgt. simpl.
  apply IH.
Qed.

(** C2, at a catalog of one item priced 0 and the default targets: however
    many passes of the outer loop are allowed, [greedyOptimizeProtein] has not
    left the loop. *)
Theorem greedyOptimizeProtein_free_item (fuel : nat) :
  let water := Item.mk "water" "Water" Side (int 0) None None None None None None in
  let st := {| items := [water]; qty := ∅;
               targets := Targets.mk (Some (int 1000)) (Some (int 900))
                            (Some (int 20)) (Some (int 6));
               saves := []; saveName := "" |} in
  greedyOptimizeProtein fuel st = None.
Proof.
  cbn zeta. unfold greedyOptimizeProtein, greedy_ledger. cbn zeta.
  change (items _) with
    [Item.mk "water" "Water" Side (int 0) None None None None None None].
  rewrite sort_singleton, greedy_while_free_item; [done | by apply int_0 | done].
Qed.

(* ===================================================================== *)
(** * greedyOptimizeProtein: the budget *)
(* ===================================================================== *)


(** A negative budget: nothing is bought, and the empty ledger's price of 0
    is above the budget. *)
Lemma greedy_negative_budget :
  let a := Item.mk "a" "A" Shushoku (int 100) None None None None None None in
  let targets := Targets.mk (Some (int (-1))) None None None in
  greedy_ledger 1 [a] targets = Some ∅
  ∧ ¬ Totals.price (computeTotals [a] ∅) ≤ active_budget targets.
Proof.
  cbn zeta. split; [reflexivity |]. apply Qclt_not_le. reflexivity.
Qed.



(** The run of the self-test catalog under the default budget of 1000: four
    of [a] and three of [b], 1000 in all. *)
Example greedy_example :
  let a := Item.mk "a" "A" Shushoku (int 100) None (Some (int 10)) None None None None in
  let b := Item.mk "b" "B" Okazu (int 200) None (Some (int 5)) None None None None in
  ∃ next,
    greedy_ledger 4 [a; b] (Targets.mk None None None None) = Some next
    ∧ getQty next "a" = int 4 ∧ getQty next "b" = int 3
    ∧ Totals.price (computeTotals [a; b] next) = int 1000
    ∧ greedy_ledger 3 [a; b] (Targets.mk None None None None) = None.
Proof.
  cbn zeta. eexists. split; [reflexivity |].
  repeat split; try (by apply Qc_is_canon); reflexivity.
Qed.

(* ===================================================================== *)
(** * More about computeTotals *)
(* ===================================================================== *)





(** Two ledgers that agree under the ids of the items give the same
    totals. *)
Lemma computeTotals_ext_in items l1 l2 :
  (∀ it, it ∈ items → getQty l1 (Item.id it) = getQty l2 (Item.id it)) →
  computeTotals items l1 = computeTotals items l2.
Proof.
  intros Heq.
  assert (Hpick : ∀ k, pick items l1 k = pick items l2 k).
  { intros k. unfold pick. rewrite !sum_map_sigma. apply sigma_ext.
    intros it Hit. by rewrite (Heq it Hit). }
  unfold computeTotals. rewrite !Hpick. f_equal.
  rewrite !sum_map_sigma. by apply sigma_ext.
Qed.

(** X1. The totals read the ledger under the ids of the items only: two
    ledgers with the same entries there give the same totals, whatever else
    they hold. *)
Theorem computeTotals_only_item_ids (items : list Item)
    (l1 l2 : gmap string number) :
  (∀ it, it ∈ items → l1 !! Item.id it = l2 !! Item.id it) →
  computeTotals items l1 = computeTotals items l2.
Proof.
  intros Heq. apply computeTotals_ext_in. intros it Hit.
  unfold getQty. by rewrite (Heq it Hit).
Qed.

Lemma computeTotals_only_item_ids_witness :
  let a := Item.mk "a" "A" Shushoku (int 100) None (Some (int 10)) None None None None in
  (∀ it, it ∈ [a] →
     (<["x" := int 3]> {[ "a" := int 2 ]} : gmap string number) !! Item.id it
     = ({[ "a" := int 2 ]} : gmap string number) !! Item.id it)
  ∧ computeTotals [a] (<["x" := int 3]> {[ "a" := int 2 ]})
    = computeTotals [a] {[ "a" := int 2 ]}.
Proof.
  cbn zeta.
  assert (H : ∀ it, it ∈
      [Item.mk "a" "A" Shushoku (int 100) None (Some (int 10)) None None None None] →
      (<["x" := int 3]> {[ "a" := int 2 ]} : gmap string number) !! Item.id it
      = ({[ "a" := int 2 ]} : gmap string number) !! Item.id it).
  { intros it Hit. apply list_elem_of_singleton in Hit as ->. reflexivity. }
  split; [exact H |].
  exact (computeTotals_only_item_ids _ _ _ H).
Defined.









(* ===================================================================== *)
(** * The quantity controls *)
(* ===================================================================== *)

























(* ===================================================================== *)
(** * More about the saves *)
(* ===================================================================== *)

Lemma validateSavedCombo_truthy s v :
  validateSavedCombo s = Some v → (truthy v = true ↔ well_shaped s).
Proof.
  intros Hv. destruct (validateSavedCombo_total s) as (v' & Hv' & Hiff & _).
  rewrite Hv' in Hv. by injection Hv as <-.
Qed.

Lemma created_well_shaped {R : Runtime} name ledger tg clock :
  well_shaped (SavedCombo_value (createSavedCombo name ledger tg clock).1).
Proof.
  pose proof (validateSavedCombo_created name ledger tg clock) as Hv.
  by apply (validateSavedCombo_truthy _ _ Hv).
Qed.

Lemma filter_valid_filter elems :
  filter_valid elems
  = Some (List.filter
            (λ s, match validateSavedCombo s with
                  | Some v => truthy v
                  | None => false
                  end) elems).
Proof.
  induction elems as [| s rest IH]; [done |]. simpl.
  destruct (validateSavedCombo_total s) as (v & -> & _). simpl.
  rewrite IH. simpl. by destruct (truthy v).
Qed.

(** X10. [importSaves] refuses whatever is not an array and leaves the
    state alone; of an array it appends the well shaped entries, in the order
    of the file and as often as they occur, drops the others without a
    word, and keeps the last 50 of the whole; nothing but the saves
    changes. *)
Theorem importSaves_outcome (parsed : JSValue) (st : AppState) :
  (importSaves parsed st = None ↔ ∀ elems, parsed ≠ JArr elems)
  ∧ ∀ elems, parsed = JArr elems →
      ∃ (keep : JSValue → bool) st',
        (∀ s, keep s = true ↔ well_shaped s)
        ∧ importSaves parsed st = Some st'
        ∧ saves st' = slice (- MAX_SAVES) (saves st ++ List.filter keep elems)
        ∧ ((length (saves st) + length (List.filter keep elems) ≤ 50)%nat →
           saves st' = saves st ++ List.filter keep elems)
        ∧ items st' = items st ∧ qty st' = qty st ∧ targets st' = targets st.
Proof.
  split.
  - split.
    + intros Hnone elems ->. unfold importSaves in Hnone.
      by rewrite filter_valid_filter in Hnone.
    + intros Hno. destruct parsed; try done. by destruct (Hno elems).
  - intros elems ->.
    exists (λ s, match validateSavedCombo s with
                 | Some v => truthy v
                 | None => false
                 end).
    eexists. split; [| split].
    + intros s. destruct (validateSavedCombo_total s) as (v & -> & Hiff & _).
      exact Hiff.
    + unfold importSaves. rewrite filter_valid_filter. reflexivity.
    + simpl. split; [done |]. split; [| done].
      intros Hlen. change (- MAX_SAVES)%Z with (- Z.of_nat 50)%Z.
      rewrite slice_last by lia. rewrite length_app.
      replace (length (saves st) + length _ - 50)%nat with 0%nat by lia.
      done.
Qed.

Lemma importSaves_outcome_witness :
  let good := JObj (list_to_map [("id", JStr "s1"); ("name", JStr "n");
                                 ("createdAt", JNum (int 5)); ("qty", JObj ∅)]) in
  let st := {| items := []; qty := ∅; targets := Targets.mk None None None None;
               saves := []; saveName := "" |} in
  (saves <$> importSaves (JArr [JNull; good; JNum (int 3)]) st) = Some [good]
  ∧ (importSaves (JStr "saves") st = None ↔ ∀ elems, JStr "saves" ≠ JArr elems).
Proof.
  cbn zeta. split; [reflexivity |].
  exact (proj1 (importSaves_outcome (JStr "saves")
           {| items := []; qty := ∅; targets := Targets.mk None None None None;
              saves := []; saveName := "" |})).
Defined.

Lemma Forall_slice {A} (P : A → Prop) start (arr : list A) :
  Forall P arr → Forall P (slice start arr).
Proof. intros H. unfold slice. cbn zeta. by apply Forall_drop. Qed.

Lemma filter_other_ids_filter id prev :
  Forall (λ s, s ≠ JNull ∧ s ≠ JUndefined) prev →
  filter_other_ids id prev
  = Some (List.filter (λ s, id_differs (field s "id") id) prev).
Proof.
  induction 1 as [| s rest [Hnull Hundef] _ IH]; [done |]. simpl.
  rewrite IH. destruct s; try done; simpl; by destruct (id_differs _ _).
Qed.

Lemma well_shaped_not_null s : well_shaped s → s ≠ JNull ∧ s ≠ JUndefined.
Proof. intros [Hobj _]. by destruct s. Qed.

Lemma Forall_filter_bool {A} (P : A → Prop) (f : A → bool) l :
  Forall P l → Forall P (List.filter f l).
Proof.
  induction 1 as [| x l Hx _ IH]; simpl; [constructor |].
  destruct (f x); [by constructor | done].
Qed.

(** X11. The saves stay well shaped: when every save has the shape
    [validateSavedCombo] asks for, so has every save after [saveCurrent],
    after [importSaves] of any array, and after [deleteSave], which then
    does not throw. *)
Theorem saves_stay_well_shaped {R : Runtime} (st : AppState) :
  Forall well_shaped (saves st) →
  (∀ clock, Forall well_shaped (saves (saveCurrent st clock).1))
  ∧ (∀ elems st', importSaves (JArr elems) st = Some st' →
       Forall well_shaped (saves st'))
  ∧ (∀ id, ∃ st', deleteSave id st = Some st' ∧ Forall well_shaped (saves st')).
Proof.
  intros Hall. split; [| split].
  - intros clock. unfold saveCurrent, bind, ret, Date_now.
    destruct (createSavedCombo _ _ _ clock) as [saved clock'] eqn:Hsaved.
    simpl. apply Forall_app. split; [by apply Forall_slice |].
    apply Forall_singleton.
    pose proof (created_well_shaped (saveName st) (qty st) (Some (targets st)) clock)
      as Hw.
    by rewrite Hsaved in Hw.
  - intros elems st'. unfold importSaves. rewrite filter_valid_filter. simpl.
    intros [= <-]. simpl. apply Forall_slice, Forall_app. split; [done |].
    apply Forall_forall. intros s Hs. apply list_elem_of_In in Hs.
    apply filter_In in Hs as [_ Hs].
    destruct (validateSavedCombo s) as [v |] eqn:Hv; [| done].
    by apply (validateSavedCombo_truthy s v).
  - intros id. unfold deleteSave. rewrite filter_other_ids_filter.
    + eexists. split; [reflexivity |]. simpl. by apply Forall_filter_bool.
    + eapply Forall_impl; [exact Hall |]. apply well_shaped_not_null.
Qed.

Lemma saves_stay_well_shaped_witness :
  let st := {| items := []; qty := ∅; targets := Targets.mk None None None None;
               saves := []; saveName := "lunch" |} in
  Forall well_shaped (saves st)
  ∧ Forall well_shaped (saves (@saveCurrent ascii_runtime st (ticking 1000)).1).
Proof.
  cbn zeta. split; [constructor |].
  exact (proj1 (@saves_stay_well_shaped ascii_runtime
           {| items := []; qty := ∅; targets := Targets.mk None None None None;
              saves := []; saveName := "lunch" |} (Forall_nil_2 _)) (ticking 1000)).
Defined.

Lemma filter_bool_elem_of {A} (f : A → bool) l x :
  x ∈ List.filter f l ↔ x ∈ l ∧ f x = true.
Proof. rewrite !list_elem_of_In. apply filter_In. Qed.

(** X12. [deleteSave] takes every save with the id away and no other: on
    saves none of which is [null] or [undefined] it keeps, in their order,
    exactly the saves whose [id] is not the string given, so two saves under
    one id go together, and an id no save has changes nothing. *)
Theorem deleteSave_outcome (id : string) (st : AppState) :
  Forall (λ s, s ≠ JNull ∧ s ≠ JUndefined) (saves st) →
  ∃ st',
    deleteSave id st = Some st'
    ∧ saves st' `sublist_of` saves st
    ∧ (∀ s, s ∈ saves st' ↔ s ∈ saves st ∧ field s "id" ≠ JStr id)
    ∧ ((∀ s, s ∈ saves st → field s "id" ≠ JStr id) → saves st' = saves st)
    ∧ items st' = items st ∧ qty st' = qty st ∧ targets st' = targets st.
Proof.
  intros Hall. unfold deleteSave. rewrite filter_other_ids_filter by done.
  eexists. split; [reflexivity |]. simpl.
  assert (Hdiff : ∀ s, id_differs (field s "id") id = true ↔ field s "id" ≠ JStr id).
  { intros s. unfold id_differs. destruct (field s "id"); try (split; done).
    rewrite negb_true_iff, bool_decide_eq_false. split; [congruence |].
    intros Hne ->. by apply Hne. }
  split; [apply filter_sublist |]. split; [| split; [| done]].
  - intros s. rewrite filter_bool_elem_of. by rewrite Hdiff.
  - intros Hnone. clear Hall. induction (saves st) as [| s rest IH]; [done |].
    simpl. assert (Hs : id_differs (field s "id") id = true).
    { apply Hdiff, Hnone. by left. }
    rewrite Hs. f_equal. apply IH. intros s' Hs'. apply Hnone. by right.
Qed.

Lemma deleteSave_outcome_witness :
  let save_as (id : string) (t : Z) :=
    JObj (list_to_map [("id", JStr id); ("name", JStr "n");
                       ("createdAt", JNum (int t)); ("qty", JObj ∅)]) in
  let st := {| items := []; qty := ∅; targets := Targets.mk None None None None;
               saves := [save_as "save_7" 7%Z; save_as "save_8" 8%Z; save_as "save_7" 7%Z];
               saveName := "" |} in
  Forall (λ s, s ≠ JNull ∧ s ≠ JUndefined) (saves st)
  ∧ (saves <$> deleteSave "save_7" st) = Some [save_as "save_8" 8%Z]
  ∧ ∃ st', deleteSave "save_7" st = Some st' ∧ saves st' `sublist_of` saves st.
Proof.
  cbn zeta.
  match goal with |- Forall ?P ?l ∧ _ => assert (Hall : Forall P l) end.
  { repeat constructor; discriminate. }
  split; [exact Hall |]. split; [reflexivity |].
  destruct (deleteSave_outcome "save_7" _ Hall) as (st' & Hdel & Hsub & _).
  exists st'. split; [exact Hdel | exact Hsub].
Defined.


(** X14. What [createSavedCombo] returns passes [validateSavedCombo], and
    an import of it alone appends it to the saves. *)
Theorem created_save_is_valid {R : Runtime} (name : string)
    (ledger : gmap string number) (tg : option Targets) (clock : Clock)
    (st : AppState) :
  let saved := SavedCombo_value (createSavedCombo name ledger tg clock).1 in
  validateSavedCombo saved = Some (JBool true)
  ∧ (saves <$> importSaves (JArr [saved]) st)
    = Some (slice (- MAX_SAVES) (saves st ++ [saved])).
Proof.
  cbn zeta. split; [apply validateSavedCombo_created |].
  unfold importSaves. simpl. by rewrite validateSavedCombo_created.
Qed.

(* ===================================================================== *)
(** * More about greedyOptimizeProtein *)
(* ===================================================================== *)


















(* ===================================================================== *)
(** * randomUnderBudget *)
(* ===================================================================== *)

Section random_invariant.
Variables (pool : list Item) (budget : number).
Hypothesis pool_ids : NoDup (map Item.id pool).




End random_invariant.








(* ===================================================================== *)
(** * The saved ledgers and the menu *)
(* ===================================================================== *)

Lemma filter_length_0 {A} (f : A → bool) l :
  length (List.filter f l) = 0%nat ↔ ∀ x, x ∈ l → f x = false.
Proof.
  induction l as [| x l IH]; simpl.
  - split; [intros _ y Hy; by apply elem_of_nil in Hy | done].
  - destruct (f x) eqn:Hx; simpl.
    + split; [done |]. intros Hall. specialize (Hall x (list_elem_of_here _ _)).
      congruence.
    + rewrite IH. split.
      * intros Hall y [-> | Hy]%elem_of_cons; [done | by apply Hall].
      * intros Hall y Hy. apply Hall. by right.
Qed.

Lemma existsb_id items k :
  existsb (λ it, bool_decide (Item.id it = k)) items = true
  ↔ k ∈ map Item.id items.
Proof.
  rewrite existsb_exists, list_elem_of_fmap. split.
  - intros (it & Hin & Hid). apply bool_decide_eq_true in Hid.
    exists it. split; [done | by apply list_elem_of_In].
  - intros (it & -> & Hin). exists it.
    split; [by apply list_elem_of_In | by apply bool_decide_eq_true].
Qed.

(** X20. The warning under a save counts the entries no item answers to:
    [missing] is 0 exactly when every key of the saved ledger is the id of an
    item of the menu, and never more than the number of entries. *)
Theorem missing_none (items : list Item) (saved : gmap string number) :
  (missing items saved = 0%nat
     ↔ ∀ k, is_Some (saved !! k) → k ∈ map Item.id items)
  ∧ (missing items saved ≤ size saved)%nat.
Proof.
  unfold missing. split.
  - rewrite filter_length_0. split.
    + intros Hall k [v Hk].
      assert (Hin : k ∈ map fst (map_to_list saved)).
      { apply list_elem_of_fmap. exists (k, v).
        split; [done | by apply elem_of_map_to_list]. }
      specialize (Hall k Hin). apply negb_false_iff in Hall.
      by apply existsb_id.
    + intros Hall k Hk. apply list_elem_of_fmap in Hk as ([k' v] & -> & Hkv).
      apply elem_of_map_to_list in Hkv. simpl.
      apply negb_false_iff, existsb_id, Hall. by exists v.
  - etrans; [apply List.filter_length_le |].
    rewrite length_map. by rewrite length_map_to_list.
Qed.

(* ===================================================================== *)
(** * The menu list *)
(* ===================================================================== *)













(* ===================================================================== *)
(** * The JSON editor *)
(* ===================================================================== *)

Lemma get_field it k :
  it ≠ JNull → it ≠ JUndefined → get it k = Some (field it k).
Proof. by destruct it. Qed.

Lemma check_row_ok_object i it :
  it ≠ JNull → it ≠ JUndefined → check_row i it = None ↔ row_ok it.
Proof.
  intros Hnull Hundef. unfold check_row, row_ok. rewrite !get_field by done.
  destruct (truthy (field it "id")) eqn:Hid; cbn [negb];
    [| split; [done | intros (_ & _ & ? & _); done]].
  destruct (truthy (field it "name")) eqn:Hname; cbn [negb];
    [| split; [done | intros (_ & _ & _ & ? & _); done]].
  destruct (truthy (field it "category")) eqn:Hcat; cbn [negb];
    [| split; [done | intros (_ & _ & _ & _ & ? & _); done]].
  destruct (bool_decide (typeof (field it "price") = "number")) eqn:Hp; cbn [negb].
  - apply bool_decide_eq_true in Hp. tauto.
  - apply bool_decide_eq_false in Hp. split; [done |].
    intros (_ & _ & _ & _ & _ & ?). done.
Qed.

Lemma check_row_ok i it : check_row i it = None ↔ row_ok it.
Proof.
  destruct it as [| | b | n | str | elems | fields];
    try (by apply check_row_ok_object).
  - simpl. split; [done | by intros (_ & ? & _)].
  - simpl. split; [done | by intros (? & _)].
Qed.


Lemma check_rows_ok i rows : check_rows i rows = None ↔ Forall row_ok rows.
Proof.
  revert i. induction rows as [| it rest IH]; intros i; simpl.
  - split; [constructor | done].
  - destruct (check_row i it) as [e |] eqn:Hrow.
    + split; [done |]. intros Hall. apply Forall_cons in Hall as [Hok _].
      apply (check_row_ok i) in Hok. congruence.
    + rewrite IH. apply check_row_ok in Hrow. split.
      * by constructor.
      * by intros [_ ?]%Forall_cons.
Qed.


(** X25. The editor applies a text exactly when it holds an array whose
    every row is not [null], has an [id], a [name] and a [category] that are
    truthy and has a number as [price]; it then hands over the array as it
    is.  Nothing else is asked of the rows: not that the ids differ, not that
    the price is positive. *)
Theorem tryApply_accepts (parsed : JSValue) (rows : list JSValue) :
  (tryApply parsed = inr rows ↔ parsed = JArr rows ∧ Forall row_ok rows)
  ∧ (tryApply (JArr rows) = inr rows →
     tryApply (JArr (rows ++ rows)) = inr (rows ++ rows)).
Proof.
  assert (Hiff : ∀ p r, tryApply p = inr r ↔ p = JArr r ∧ Forall row_ok r).
  { intros p r. unfold tryApply. destruct p; try (split; [done | by intros [? _]]).
    destruct (check_rows 0 elems) as [e |] eqn:Hrows.
    - split; [done |]. intros [[= ->] Hall]. apply (check_rows_ok 0) in Hall.
      congruence.
    - apply check_rows_ok in Hrows. split.
      + by intros [= <-].
      + by intros [[= ->] _]. }
  split; [apply Hiff |].
  intros Hok. apply Hiff in Hok as [_ Hall]. apply Hiff.
  split; [done | by apply Forall_app].
Qed.



(* ===================================================================== *)
(** * byCategory *)
(* ===================================================================== *)

Lemma Map_get_set_eq m c arr : Map_get (Map_set m c arr) c = Some arr.
Proof.
  induction m as [| [c' arr'] m IH]; simpl.
  - by rewrite decide_True.
  - destruct (decide (c' = c)) as [-> | Hne]; simpl.
    + by rewrite decide_True.
    + by rewrite decide_False.
Qed.

Lemma Map_get_set_ne m c c' arr :
  c ≠ c' → Map_get (Map_set m c arr) c' = Map_get m c'.
Proof.
  intros Hne. induction m as [| [c'' arr'] m IH]; simpl.
  - by rewrite decide_False.
  - destruct (decide (c'' = c)) as [-> | Hne']; simpl.
    + by rewrite !decide_False.
    + destruct (decide (c'' = c')); [done | exact IH].
Qed.

Lemma Map_set_keys m c arr :
  map fst (Map_set m c arr)
  = if decide (c ∈ map fst m) then map fst m else map fst m ++ [c].
Proof.
  induction m as [| [c' arr'] m IH]; simpl.
  - destruct (decide (c ∈ [])) as [Hin | _]; [by apply elem_of_nil in Hin | done].
  - destruct (decide (c' = c)) as [-> | Hne]; simpl.
    + destruct (decide (c ∈ c :: map fst m)) as [_ | Hnot]; [done |].
      exfalso. apply Hnot. by left.
    + rewrite IH.
      destruct (decide (c ∈ map fst m)) as [Hin | Hnot],
               (decide (c ∈ c' :: map fst m)) as [Hin' | Hnot']; try done.
      * exfalso. apply Hnot'. by right.
      * apply elem_of_cons in Hin' as [-> | Hin']; done.
Qed.

(** The bucket of a category after the items [l]: its items in [l], or no
    bucket when there is none. *)
Lemma byCategory_foldl l (m : list (Category * list Item)) seen :
  NoDup (map fst m) →
  (∀ c, Map_get m c
        = match List.filter (λ it, bool_decide (Item.category it = c)) seen with
          | [] => None
          | b => Some b
          end) →
  let m' := foldl (λ m it,
                     let arr := default [] (Map_get m (Item.category it)) in
                     Map_set m (Item.category it) (arr ++ [it])) m l in
  NoDup (map fst m')
  ∧ ∀ c, Map_get m' c
         = match List.filter (λ it, bool_decide (Item.category it = c)) (seen ++ l) with
           | [] => None
           | b => Some b
           end.
Proof.
  revert m seen. induction l as [| it l IH]; intros m seen Hnd Hget; cbn zeta.
  - by rewrite app_nil_r.
  - simpl foldl.
    replace (seen ++ it :: l) with ((seen ++ [it]) ++ l) by by rewrite <- app_assoc.
    apply IH.
    + rewrite Map_set_keys. destruct (decide (_ ∈ _)) as [Hin | Hnot]; [done |].
      apply NoDup_app. split; [done |]. split; [| apply NoDup_singleton].
      intros c Hc Hc'. apply list_elem_of_singleton in Hc' as ->. done.
    + intros c. rewrite List.filter_app. simpl.
      destruct (decide (Item.category it = c)) as [<- | Hne].
      * rewrite Map_get_set_eq, Hget, (bool_decide_eq_true_2 _ eq_refl).
        destruct (List.filter _ seen) as [| x b]; [done |]. done.
      * rewrite Map_get_set_ne by done.
        rewrite (bool_decide_eq_false_2 _ Hne), app_nil_r. apply Hget.
Qed.

(** X27. [byCategory] has a bucket for each category that occurs, once,
    and none for the others; the bucket of a category holds the items of that
    category in the order of the menu. *)
Theorem byCategory_buckets (items : list Item) (c : Category) :
  NoDup (map fst (byCategory items))
  ∧ Map_get (byCategory items) c
    = match List.filter (λ it, bool_decide (Item.category it = c)) items with
      | [] => None
      | bucket => Some bucket
      end.
Proof.
  destruct (byCategory_foldl items [] [] (NoDup_nil_2) (λ _, eq_refl)) as [Hnd Hget].
  split; [exact Hnd | apply Hget].
Qed.

(* ===================================================================== *)
(** * More about simpleFilter *)
(* ===================================================================== *)

Lemma filter_filter_same {A} (f : A → bool) l :
  List.filter f (List.filter f l) = List.filter f l.
Proof.
  induction l as [| x l IH]; [done |]. simpl.
  destruct (f x) eqn:Hx; simpl; rewrite ?Hx, IH; done.
Qed.

(** X28. Searching within the result of a search for the same query gives
    that result again, and the result over two menus put together is the two
    results put together. *)
Theorem simpleFilter_again {R : Runtime} (xs ys : list Item) (q : string) :
  simpleFilter (simpleFilter xs q) q = simpleFilter xs q
  ∧ simpleFilter (xs ++ ys) q = simpleFilter xs q ++ simpleFilter ys q.
Proof.
  unfold simpleFilter. cbn zeta. destruct (str_falsy _); [done |].
  split; [apply filter_filter_same | apply List.filter_app].
Qed.

(* ===================================================================== *)
(** * Nothing selected, and totals that are never negative *)
(* ===================================================================== *)



